(** * The megatable fixture generator (sample_tables/megatable_gen.py)

    A shallow embedding of the script that builds the stress-test table of
    the cells demo, and the properties of the table it builds.

    Python values are modelled as the script uses them: an [int] is a [Z],
    a [str] is the list of its Unicode code points, a [dict] is an
    insertion-ordered association list living in a store of objects, and a
    builtin that can raise returns in an error monad. *)

From stdpp Require Import base list numbers option strings.
From stdpp Require Import gmap.
From Stdlib Require Import ZArith Lia Wf_nat.

Local Open Scope Z_scope.

(** ** Python strings *)

(** A Python [str] is a sequence of code points. *)
Abbreviation pystr := (list Z) (only parsing).

(** A string literal of the source: each character by its code point. *)
Definition lit (s : string) : pystr :=
  (fun a => Z.of_N (Ascii.N_of_ascii a)) <$> String.list_ascii_of_string s.

(** The code points of the decimal digits. *)
Definition digit_char (d : Z) : Z := 48 + d.

Definition is_digit_char (c : Z) : Prop := 48 <= c <= 57.

(** ** Exceptions and results *)

Inductive exn : Type :=
  | ValueError    (* chr() argument outside range(0x110000) *)
  | OverflowError (* chr() argument that does not fit a C int *)
  | TypeError     (* ord() of a string whose length is not 1 *)
  | InvalidRef.   (* a reference to no object of the store; CPython never
                     produces one, the store of the model is partial *)

Inductive result (A : Type) : Type :=
  | Ok (a : A)
  | Raise (e : exn).
Arguments Ok {A} a.
Arguments Raise {A} e.

(** ** Builtins on integers and strings *)

(** [chr(i)]: the one-character string of code point [i].  CPython takes
    the argument as a C int, of 32 bits: an [int] that does not fit raises
    [OverflowError], one that fits and is no code point [ValueError]. *)
Definition chr (i : Z) : result pystr :=
  if bool_decide (0 <= i < 1114112) then Ok [i]
  else if bool_decide (-2147483648 <= i <= 2147483647) then Raise ValueError
  else Raise OverflowError.

(** [ord(s)]: the code point of a one-character string. *)
Definition ord (s : pystr) : result Z :=
  match s with
  | [c] => Ok c
  | _ => Raise TypeError
  end.

(** [range(a, b)] as the sequence a for loop draws from it. *)
Definition range (a b : Z) : list Z := seqZ a (b - a).

(** The decimal digits of a natural number, most significant first.  The
    recursion is on the quotient by ten; [fuel] bounds its depth. *)
Fixpoint digits_fuel (fuel : nat) (n : Z) : pystr :=
  match fuel with
  | O => []
  | S fuel' =>
      if n <? 10 then [digit_char n]
      else digits_fuel fuel' (n / 10) ++ [digit_char (n mod 10)]
  end.

(** The binary length of [n] bounds its decimal length. *)
Definition digits (n : Z) : pystr :=
  digits_fuel (S (Z.to_nat (Z.log2 n))) n.

(** CPython, from 3.11 on and unless it is told otherwise, converts an
    [int] to a decimal string only up to this many digits; the script leaves
    the limit as it is. *)
Definition int_max_str_digits : Z := 4300.

(** The integers within that limit.  On any other, [str(n)] and the [d]
    format raise [ValueError] and return no string; [str] and [format_0d]
    below give the string of a conversion that returns, and say what the
    code does on the [convertible] integers only. *)
Definition convertible (n : Z) : Prop := Z.abs n < 10 ^ int_max_str_digits.

(** [str(n)] for an [int]. *)
Definition str (n : Z) : pystr :=
  if n <? 0 then 45 :: digits (- n) else digits n.

(** [format(n, "0{width}d")]: sign-aware zero padding up to a minimum
    width; the sign counts towards the width. *)
Definition format_0d (width : nat) (n : Z) : pystr :=
  let sign := if n <? 0 then [45] else [] in
  let ds := digits (Z.abs n) in
  sign ++ replicate (width - length sign - length ds)%nat 48 ++ ds.

(** [get_cell_id(col, row)]: [f"{col}{row:02d}"]. *)
Definition get_cell_id (col : pystr) (row : Z) : pystr :=
  col ++ format_0d 2 row.

(** ** Dictionaries *)

(** A [dict] keeps its keys in insertion order; assigning to a key that is
    present replaces the value and keeps the position. *)
Section dict.
Context {V : Type}.

Fixpoint dict_set (d : list (pystr * V)) (k : pystr) (v : V)
  : list (pystr * V) :=
  match d with
  | [] => [(k, v)]
  | (k', v') :: d' =>
      if decide (k' = k) then (k', v) :: d'
      else (k', v') :: dict_set d' k v
  end.

Fixpoint dict_get (d : list (pystr * V)) (k : pystr) : option V :=
  match d with
  | [] => None
  | (k', v') :: d' => if decide (k' = k) then Some v' else dict_get d' k
  end.

Definition dict_keys (d : list (pystr * V)) : list pystr := d.*1.
End dict.

(** ** The store of objects *)

(** What a dictionary slot holds: a string or a reference to a dictionary. *)
Inductive value : Type :=
  | VStr (s : pystr)
  | VRef (l : nat).

Abbreviation dict := (list (pystr * value)) (only parsing).
Abbreviation heap := (list (list (pystr * value))) (only parsing).

(** Computations that read and write the store and may raise. *)
Definition M (A : Type) : Type := heap -> result (A * heap).

Definition run {A} (m : M A) (h : heap) : result (A * heap) := m h.

Global Instance M_ret : MRet M := fun A a h => Ok (a, h).

Global Instance M_bind : MBind M := fun A B f m h =>
  match m h with
  | Ok (a, h') => f a h'
  | Raise e => Raise e
  end.

(** A pure builtin used inside a computation. *)
Definition lift {A} (r : result A) : M A := fun h =>
  match r with
  | Ok a => Ok (a, h)
  | Raise e => Raise e
  end.

(** [dict()] and dictionary displays: a fresh object at the end of the
    store. *)
Definition new_dict (d : dict) : M value := fun h =>
  Ok (VRef (length h), h ++ [d]).

(** [target[k] = v]. *)
Definition setitem (target : value) (k : pystr) (v : value) : M unit :=
  fun h =>
    match target with
    | VRef l =>
        match h !! l with
        | Some d => Ok (tt, <[l := dict_set d k v]> h)
        | None => Raise InvalidRef
        end
    | VStr _ => Raise TypeError
    end.

(** [for x in xs: body x]. *)
Fixpoint for_each {A} (xs : list A) (body : A -> M unit) : M unit :=
  match xs with
  | [] => mret tt
  | x :: xs' => body x ≫= fun _ => for_each xs' body
  end.

(** ** The generator *)

(** The body of the inner loop, for one column code and one row. *)
Definition cell_step (inputs : value) (col_code row : Z) : M unit :=
  col ← lift (chr col_code);
  let cell_id := get_cell_id col row in
  if decide (col = lit "A") then
    setitem inputs cell_id (VStr (str row))
  else
    prev_col ← lift (chr (col_code - 1));
    let prev_cell_id := get_cell_id prev_col row in
    setitem inputs cell_id (VStr (lit "= " ++ prev_cell_id ++ lit " * 1.25")).

Definition gen_megatable : M value :=
  inputs ← new_dict [];
  a ← lift (ord (lit "A"));
  z ← lift (ord (lit "Z"));
  for_each (range a (z + 1)) (fun col_code =>
    for_each (range 1 51) (fun row =>
      cell_step inputs col_code row));;
  new_dict [(lit "inputs", inputs)].

(** ** Reading a result back out of the store *)

(** The dictionary a reference points to. *)
Definition deref (h : heap) (v : value) : option dict :=
  match v with
  | VRef l => h !! l
  | VStr _ => None
  end.

(** The document a call returned, with the dictionaries it refers to read
    out of the store: the list of its keys, each with the dictionary under
    it. *)
Definition snapshot (h : heap) (v : value)
  : option (list (pystr * list (pystr * value))) :=
  d ← deref h v;
  mapM (fun kv => d' ← deref h kv.2; Some (kv.1, d')) d.

(** The document of one call of the generator from store [h]. *)
Definition fixture (h : heap) : option (list (pystr * list (pystr * value))) :=
  match run gen_megatable h with
  | Ok (doc, h') => snapshot h' doc
  | Raise _ => None
  end.

(** The mapping under the key ["inputs"] of that document. *)
Definition fixture_inputs (h : heap) : option dict :=
  doc ← fixture h; dict_get doc (lit "inputs").

(** The value a digit string denotes in base ten. *)
Definition decimal_value (s : pystr) : Z :=
  foldl (fun acc c => 10 * acc + (c - 48)) 0 s.

(** ** The table, cell by cell *)

(** The cells in the order the two loops visit them: column codes
    outermost, rows innermost. *)
Definition grid : list (Z * Z) :=
  col_code ← range 65 91; pair col_code <$> range 1 51.

(** What one pass through the loop body stores under the cell's key. *)
Definition cell_content (col_code row : Z) : pystr :=
  if decide (col_code = 65) then str row
  else lit "= " ++ get_cell_id [col_code - 1] row ++ lit " * 1.25".

Definition cell_entry (cell : Z * Z) : pystr * value :=
  (get_cell_id [cell.1] cell.2, VStr (cell_content cell.1 cell.2)).

Definition table : dict := cell_entry <$> grid.

(** ** References between cells *)

(** The identifier a formula ["= <id> * 1.25"] refers to; [None] for a
    string that is not of that form. *)
Definition formula_ref (v : pystr) : option pystr :=
  match v with
  | 61 :: 32 :: body =>
      let n := (length body - 7)%nat in
      if decide (drop n body = lit " * 1.25") then Some (take n body)
      else None
  | _ => None
  end.

(** Cell [k] of [inputs] holds a formula that refers to cell [k']. *)
Definition refers (inputs : dict) (k k' : pystr) : Prop :=
  exists v, dict_get inputs k = Some (VStr v) /\ formula_ref v = Some k'.

(** The cell reached from [k] by following [steps] references. *)
Fixpoint chase (inputs : dict) (steps : nat) (k : pystr) : option pystr :=
  match steps with
  | O => Some k
  | S steps' =>
      match dict_get inputs k with
      | Some (VStr v) => k' ← formula_ref v; chase inputs steps' k'
      | _ => None
      end
  end.

(** The code point of the column letter of an identifier. *)
Definition column_of (k : pystr) : Z := default 0 (head k).

(** The two loops of the generator around any body. *)
Definition table_loops (a z : Z) (body : Z -> Z -> M unit) : M unit :=
  for_each (range a (z + 1)) (fun col_code =>
    for_each (range 1 51) (fun row => body col_code row)).

(** A body that does nothing but record the pass: it appends its
    arguments to the dictionary at [log]. *)
Definition record_pass (log : nat) (col_code row : Z) : M unit := fun h =>
  match h !! log with
  | Some d => Ok (tt, <[log := d ++ [([col_code; row], VStr [])]]> h)
  | None => Raise InvalidRef
  end.

(** Two calls of the generator, one after the other, on one store. *)
Definition call_twice : M (value * value) :=
  doc1 ← gen_megatable; doc2 ← gen_megatable; mret (doc1, doc2).

(** ** Reading a row back out of an identifier *)

(** The integer a signed decimal string denotes. *)
Definition row_of (s : pystr) : Z :=
  match s with
  | [] => 0
  | c :: ds => if decide (c = 45) then - decimal_value ds else decimal_value s
  end.

(** ** Writing the fixture out: the [__main__] block *)

(** A literal in which each apostrophe stands for a double quote. *)
Definition jlit (s : string) : pystr :=
  (fun c => if decide (c = 39) then 34 else c) <$> lit s.

(** The characters that [json] writes as they are: space to tilde, but for
    the double quote and the backslash. *)
Definition is_plain_char (c : Z) : Prop := 32 <= c <= 126 /\ c <> 34 /\ c <> 92.

Definition is_printable (c : Z) : Prop := 32 <= c <= 126.

(** One lowercase hexadecimal digit. *)
Definition hex_char (d : Z) : Z :=
  if bool_decide (d < 10) then 48 + d else 87 + d.

(** ['{0:04x}'.format(n)] for [n] below 0x10000. *)
Definition hex4 (n : Z) : pystr :=
  [hex_char (n / 4096 mod 16); hex_char (n / 256 mod 16);
   hex_char (n / 16 mod 16); hex_char (n mod 16)].

(** What [json] writes for one character of a string under
    [ensure_ascii]: the short escapes, the character itself, a [\uXXXX]
    escape or a surrogate pair of them. *)
Definition json_escape (c : Z) : pystr :=
  if decide (c = 34) then [92; 34]
  else if decide (c = 92) then [92; 92]
  else if decide (c = 8) then [92; 98]
  else if decide (c = 12) then [92; 102]
  else if decide (c = 10) then [92; 110]
  else if decide (c = 13) then [92; 114]
  else if decide (c = 9) then [92; 116]
  else if bool_decide (32 <= c <= 126) then [c]
  else if bool_decide (c < 65536) then [92; 117] ++ hex4 c
  else
    let n := c - 65536 in
    [92; 117] ++ hex4 (Z.lor 55296 (Z.land (Z.shiftr n 10) 1023)) ++
    [92; 117] ++ hex4 (Z.lor 56320 (Z.land n 1023)).

(** A string as a JSON string. *)
Definition json_string (s : pystr) : pystr :=
  34 :: (s ≫= json_escape) ++ [34].

(** How an encoding ends: all written, an exception, or the recursion
    bound of the model reached. *)
Inductive outcome : Type :=
  | Done
  | Failed (e : exn)
  | Exhausted.

(** [json.dump] writes chunk by chunk: the text written so far stays
    written when a later chunk raises. *)
Definition emit (t : pystr) : pystr * outcome := (t, Done).

Definition emit_then (e1 e2 : pystr * outcome) : pystr * outcome :=
  match e1.2 with
  | Done => (e1.1 ++ e2.1, e2.2)
  | _ => e1
  end.

(** The members of a dictionary, in insertion order, separated by [", "];
    [enc] writes a value. *)
Fixpoint json_items (enc : value -> pystr * outcome) (first : bool)
    (items : dict) : pystr * outcome :=
  match items with
  | [] => emit []
  | (key, v) :: items' =>
      emit_then (emit (if first then [] else lit ", "))
        (emit_then (emit (json_string key))
           (emit_then (emit (lit ": "))
              (emit_then (enc v) (json_items enc false items'))))
  end.

(** A value of the store as JSON.  [markers] are the dictionaries being
    written, from the innermost out; meeting one of them again is a
    circular reference.  An empty dictionary is written before that
    check.  The [RecursionError] that CPython raises near a thousand nested
    dictionaries is left out: the fixture nests two. *)
Fixpoint json_value_fuel (fuel : nat) (h : heap) (markers : list nat)
    (v : value) : pystr * outcome :=
  match v with
  | VStr s => emit (json_string s)
  | VRef l =>
      match h !! l with
      | None => ([], Failed InvalidRef)
      | Some [] => emit (lit "{}")
      | Some d =>
          if decide (l ∈ markers) then ([], Failed ValueError)
          else
            match fuel with
            | O => ([], Exhausted)
            | S fuel' =>
                emit_then (emit (lit "{"))
                  (emit_then
                     (json_items (json_value_fuel fuel' h (l :: markers))
                        true d)
                     (emit (lit "}")))
            end
      end
  end.

(** The nesting of dictionaries being written never exceeds the number of
    objects of the store. *)
Definition json_dump (h : heap) (v : value) : pystr * outcome :=
  json_value_fuel (length h) h [] v.

(** How a run of the script ends. *)
Inductive main_outcome : Type :=
  | Finished
  | Uncaught (e : exn)
  | OSError
  | Unfinished.

(** What the file system answers to the script: the file cannot be
    opened; or it is opened and takes [room] characters and no more (the
    disk is full); or it is opened and takes all that is written. *)
Inductive io_answer : Type :=
  | OpenFails
  | DiskFull (room : nat)
  | IoOk.

(** The script: build the table, open [megatable.json] for writing, dump.
    [fs] maps a path to the text of the file there.  Opening truncates the
    file, so what was written before an exception, of the dump or of a
    write, is what the file holds. *)
Definition main (io : io_answer) (fs : gmap (list Z) (list Z)) (h : heap)
  : main_outcome * gmap (list Z) (list Z) :=
  match run gen_megatable h with
  | Raise e => (Uncaught e, fs)
  | Ok (megatable, h') =>
      let out := json_dump h' megatable in
      let ending :=
        match out.2 with
        | Done => Finished
        | Failed e => Uncaught e
        | Exhausted => Unfinished
        end in
      match io with
      | OpenFails => (OSError, fs)
      | DiskFull room =>
          if decide (length out.1 <= room)%nat then
            (ending, <[lit "megatable.json" := out.1]> fs)
          else (OSError, <[lit "megatable.json" := take room out.1]> fs)
      | IoOk => (ending, <[lit "megatable.json" := out.1]> fs)
      end
  end.

(** The members of a JSON object, joined. *)
Fixpoint json_join (members : list pystr) : pystr :=
  match members with
  | [] => []
  | [m] => m
  | m :: members' => m ++ lit ", " ++ json_join members'
  end.

(** A member whose key and value need no escape. *)
Definition json_member (kv : pystr * pystr) : pystr :=
  [34] ++ kv.1 ++ jlit "': '" ++ kv.2 ++ [34].

(** The text of [megatable.json]. *)
Definition megatable_json : pystr :=
  jlit "{'inputs': {" ++
  json_join ((fun cell => json_member (get_cell_id [cell.1] cell.2,
                                       cell_content cell.1 cell.2)) <$> grid) ++
  lit "}}".

Example get_cell_id_B7 : get_cell_id (lit "B") 7 = lit "B07".
Proof. reflexivity. Qed.

(** * Decimal digits *)

Section digits_facts.

(** More fuel than the binary length changes nothing. *)
Lemma digits_fuel_enough (f f' : nat) (n : Z) :
  0 <= n < 2 ^ Z.of_nat (S f) -> (f <= f')%nat ->
  digits_fuel (S f') n = digits_fuel (S f) n.
Proof.
  revert f' n. induction f as [|f IH]; intros f' n Hn Hf.
  - cbn [digits_fuel]. replace (n <? 10) with true; [done|].
    symmetry. apply Z.ltb_lt. change (2 ^ Z.of_nat 1) with 2 in Hn. lia.
  - destruct f' as [|f']; [lia|].
    cbn [digits_fuel]. destruct (n <? 10) eqn:E; [done|].
    apply Z.ltb_ge in E. f_equal.
    apply IH; [|lia].
    split; [apply Z.div_pos; lia|].
    rewrite Nat2Z.inj_succ, Z.pow_succ_r in Hn by lia.
    apply Z.div_lt_upper_bound; lia.
Qed.

(** The defining equation of [digits], free of fuel. *)
Lemma digits_unfold (n : Z) :
  0 <= n ->
  digits n =
    if n <? 10 then [digit_char n]
    else digits (n / 10) ++ [digit_char (n mod 10)].
Proof.
  intros Hn. unfold digits at 1. cbn [digits_fuel].
  destruct (n <? 10) eqn:E; [done|]. apply Z.ltb_ge in E.
  f_equal. unfold digits.
  assert (Hq : 0 < n / 10) by (apply Z.div_str_pos; lia).
  assert (Hlog : Z.log2 (n / 10) + 1 <= Z.log2 n).
  { pose proof (Z.log2_double (n / 10) Hq).
    pose proof (Z.log2_le_mono (2 * (n / 10)) n).
    pose proof (Z.mul_div_le n 10). lia. }
  destruct (Z.to_nat (Z.log2 n)) as [|f'] eqn:Ef.
  { pose proof (Z.log2_nonneg (n / 10)). lia. }
  apply digits_fuel_enough.
  - split; [lia|]. rewrite Nat2Z.inj_succ, Z2Nat.id by apply Z.log2_nonneg.
    apply Z.log2_spec. done.
  - lia.
Qed.

Lemma digits_one (n : Z) : 0 <= n < 10 -> digits n = [digit_char n].
Proof.
  intros Hn. rewrite digits_unfold by lia.
  replace (n <? 10) with true; [done|]. symmetry. apply Z.ltb_lt. lia.
Qed.

Lemma digits_snoc (n : Z) :
  10 <= n -> digits n = digits (n / 10) ++ [digit_char (n mod 10)].
Proof.
  intros Hn. rewrite digits_unfold by lia.
  replace (n <? 10) with false; [done|]. symmetry. apply Z.ltb_ge. lia.
Qed.

Lemma digits_two (n : Z) :
  10 <= n < 100 ->
  digits n = [digit_char (n / 10); digit_char (n mod 10)].
Proof.
  intros Hn. rewrite digits_snoc by lia.
  rewrite digits_one; [done|].
  split; [apply Z.div_pos; lia | apply Z.div_lt_upper_bound; lia].
Qed.

(** Ten and above take at least two digits, a hundred and above at
    least three. *)
Lemma digits_length_ge_2 (n : Z) : 10 <= n -> (2 <= length (digits n))%nat.
Proof.
  intros Hn. rewrite digits_snoc, length_app by done. cbn [length].
  assert (0 <= n / 10) by (apply Z.div_pos; lia).
  rewrite digits_unfold by done.
  destruct (n / 10 <? 10); [cbn; lia | rewrite length_app; cbn; lia].
Qed.

Lemma digits_length_ge_3 (n : Z) : 100 <= n -> (3 <= length (digits n))%nat.
Proof.
  intros Hn. rewrite digits_snoc, length_app by lia. cbn [length].
  assert (10 <= n / 10) by (apply Z.div_le_lower_bound; lia).
  pose proof (digits_length_ge_2 (n / 10)). lia.
Qed.

(** Induction along the recursion of [digits]. *)
Lemma digits_ind (P : Z -> Prop) :
  (forall n, 0 <= n < 10 -> P n) ->
  (forall n, 10 <= n -> P (n / 10) -> P n) ->
  forall n, 0 <= n -> P n.
Proof.
  intros Hbase Hstep n Hn. pattern n.
  apply (Z_lt_induction (fun n => 0 <= n -> P n)); [|done|done].
  intros m IH Hm. destruct (Z_lt_ge_dec m 10) as [Hlt|Hge].
  - apply Hbase. lia.
  - apply Hstep; [lia|]. apply IH.
    + split; [apply Z.div_pos; lia | apply Z.div_lt; lia].
    + apply Z.div_pos; lia.
Qed.

(** Every character [digits] produces is a decimal digit. *)
Lemma digits_all_digit_chars (n : Z) :
  0 <= n -> Forall is_digit_char (digits n).
Proof.
  revert n. apply digits_ind; [intros n Hlt|intros n Hge IH].
  - rewrite digits_one by done. repeat constructor; unfold digit_char; lia.
  - rewrite digits_snoc by done. apply Forall_app. split; [done|].
    pose proof (Z.mod_pos_bound n 10).
    repeat constructor; unfold digit_char; lia.
Qed.

Lemma decimal_value_snoc (s : pystr) (c : Z) :
  decimal_value (s ++ [c]) = 10 * decimal_value s + (c - 48).
Proof. unfold decimal_value. by rewrite foldl_app. Qed.

(** [digits n] denotes [n]: no digit is lost and none is added. *)
Lemma decimal_value_digits (n : Z) : 0 <= n -> decimal_value (digits n) = n.
Proof.
  revert n. apply digits_ind; [intros n Hlt|intros n Hge IH].
  - rewrite digits_one by done. cbn. unfold digit_char. lia.
  - rewrite digits_snoc, decimal_value_snoc, IH by done.
    unfold digit_char. pose proof (Z.div_mod n 10). lia.
Qed.

(** The first digit of a positive number is not a zero. *)
Lemma digits_head_nonzero (n : Z) :
  1 <= n -> exists c s, digits n = c :: s /\ 49 <= c <= 57.
Proof.
  intros Hn. assert (H0 : 0 <= n) by lia. revert n H0 Hn.
  apply (digits_ind (fun n => 1 <= n -> _));
    [intros n Hlt Hn|intros n Hge IH Hn].
  - rewrite digits_one by done. exists (digit_char n), [].
    unfold digit_char. split; [done|lia].
  - destruct IH as (c & s & Hs & Hc).
    { apply Z.div_le_lower_bound; lia. }
    rewrite digits_snoc, Hs by done.
    by exists c, (s ++ [digit_char (n mod 10)]).
Qed.

End digits_facts.

(** * Cell identifiers *)

Section cell_id_facts.

Lemma str_nonneg (n : Z) : 0 <= n -> str n = digits n.
Proof.
  intros Hn. unfold str.
  replace (n <? 0) with false; [done|]. symmetry. apply Z.ltb_ge. lia.
Qed.

Lemma format_0d_nonneg (width : nat) (n : Z) :
  0 <= n ->
  format_0d width n =
    replicate (width - length (digits n)) 48 ++ digits n.
Proof.
  intros Hn. unfold format_0d.
  replace (n <? 0) with false by (symmetry; apply Z.ltb_ge; lia).
  rewrite Z.abs_eq by done. cbn [length app]. by rewrite Nat.sub_0_r.
Qed.

(** One digit is padded with one zero. *)
Lemma format_02d_one (n : Z) :
  0 <= n < 10 -> format_0d 2 n = 48 :: digits n.
Proof.
  intros Hn. rewrite format_0d_nonneg by lia. by rewrite digits_one.
Qed.

(** Two digits and more are left as they are. *)
Lemma format_02d_wide (n : Z) : 10 <= n -> format_0d 2 n = digits n.
Proof.
  intros Hn. rewrite format_0d_nonneg by lia.
  pose proof (digits_length_ge_2 n Hn).
  by replace (2 - length (digits n))%nat with 0%nat by lia.
Qed.

(** Below a hundred the padded row is its tens digit and its units
    digit. *)
Lemma format_02d_two_digits (n : Z) :
  0 <= n < 100 ->
  format_0d 2 n = [digit_char (n / 10); digit_char (n mod 10)].
Proof.
  intros Hn. destruct (Z_lt_ge_dec n 10) as [Hlt|Hge].
  - rewrite format_02d_one, digits_one by lia.
    rewrite Z.div_small, Z.mod_small by lia. done.
  - rewrite format_02d_wide, digits_two by lia. done.
Qed.

Lemma get_cell_id_two_digits (col : pystr) (row : Z) :
  0 <= row < 100 ->
  get_cell_id col row =
    col ++ [digit_char (row / 10); digit_char (row mod 10)].
Proof. intros Hr. unfold get_cell_id. by rewrite format_02d_two_digits. Qed.

(** On one-letter columns and rows below a hundred, distinct cells have
    distinct identifiers. *)
Lemma get_cell_id_inj (c1 c2 r1 r2 : Z) :
  0 <= r1 < 100 -> 0 <= r2 < 100 ->
  get_cell_id [c1] r1 = get_cell_id [c2] r2 -> c1 = c2 /\ r1 = r2.
Proof.
  intros H1 H2. rewrite !get_cell_id_two_digits by done.
  unfold digit_char. intros [= -> Hq Hm]. split; [done|].
  pose proof (Z.div_mod r1 10). pose proof (Z.div_mod r2 10). lia.
Qed.

End cell_id_facts.

(** * Dictionaries *)

Section dict_facts.
Context {V : Type}.
Implicit Types (d : list (pystr * V)) (k : pystr) (v : V).

Lemma dict_get_None d k : k ∉ dict_keys d -> dict_get d k = None.
Proof.
  unfold dict_keys. induction d as [|[k' v'] d IH]; [done|].
  cbn. intros Hk. apply not_elem_of_cons in Hk as [Hne Hk].
  destruct (decide (k' = k)); [congruence | auto].
Qed.

(** Under distinct keys a lookup finds the entry that is in the list. *)
Lemma dict_get_elem_of d k v :
  NoDup (dict_keys d) -> (k, v) ∈ d -> dict_get d k = Some v.
Proof.
  unfold dict_keys.
  induction d as [|[k' v'] d IH]; [by intros _ ?%elem_of_nil|].
  cbn. intros [Hk' Hnd]%NoDup_cons [Heq|Hin]%elem_of_cons.
  - injection Heq as -> ->. by rewrite decide_True.
  - destruct (decide (k' = k)) as [->|]; [|auto].
    exfalso. apply Hk'. apply list_elem_of_fmap. by exists (k, v).
Qed.

(** A lookup only returns what is in the list. *)
Lemma dict_get_Some d k v : dict_get d k = Some v -> (k, v) ∈ d.
Proof.
  induction d as [|[k' v'] d IH]; [done|]. cbn.
  destruct (decide (k' = k)) as [->|].
  - intros [= ->]. apply elem_of_cons. by left.
  - intros H. apply elem_of_cons. right. auto.
Qed.

(** Assigning to a new key appends the entry. *)
Lemma dict_set_fresh d k v :
  k ∉ dict_keys d -> dict_set d k v = d ++ [(k, v)].
Proof.
  unfold dict_keys. induction d as [|[k' v'] d IH]; [done|].
  cbn. intros Hk. apply not_elem_of_cons in Hk as [Hne Hk].
  rewrite decide_False by congruence. f_equal. auto.
Qed.

(** Assigning entries whose keys are new and distinct, one after the
    other, appends them in that order. *)
Lemma foldl_dict_set_fresh (kvs : list (pystr * V)) d :
  NoDup (dict_keys (d ++ kvs)) ->
  foldl (fun d kv => dict_set d kv.1 kv.2) d kvs = d ++ kvs.
Proof.
  revert d. induction kvs as [|[k v] kvs IH]; intros d Hnd.
  - by rewrite app_nil_r.
  - cbn [foldl fst snd]. rewrite dict_set_fresh.
    + rewrite IH; rewrite <- app_assoc; done.
    + unfold dict_keys in *. rewrite fmap_app in Hnd.
      apply NoDup_app in Hnd as (_ & Hdisj & _).
      intros Hin. apply (Hdisj _ Hin). cbn. apply elem_of_cons. by left.
Qed.

End dict_facts.

(** * Running computations *)

Section run_facts.

Lemma run_bind {A B} (m : M A) (f : A -> M B) (h h' : heap) (a : A) :
  run m h = Ok (a, h') -> run (m ≫= f) h = run (f a) h'.
Proof. unfold run, mbind, M_bind. by intros ->. Qed.

Lemma run_bind_raise {A B} (m : M A) (f : A -> M B) (h : heap) (e : exn) :
  run m h = Raise e -> run (m ≫= f) h = Raise e.
Proof. unfold run, mbind, M_bind. by intros ->. Qed.

Lemma run_lift_ok {A} (a : A) (h : heap) : run (lift (Ok a)) h = Ok (a, h).
Proof. done. Qed.

Lemma run_new_dict (d : dict) (h : heap) :
  run (new_dict d) h = Ok (VRef (length h), h ++ [d]).
Proof. done. Qed.

Lemma run_setitem (l : nat) (k : pystr) (v : value) (h : heap) (d : dict) :
  h !! l = Some d ->
  run (setitem (VRef l) k v) h = Ok (tt, <[l := dict_set d k v]> h).
Proof. unfold run, setitem. by intros ->. Qed.

(** A loop over a concatenation is the two loops in sequence. *)
Lemma for_each_app {A} (xs ys : list A) (body : A -> M unit) (h : heap) :
  run (for_each (xs ++ ys) body) h =
  run (for_each xs body ≫= fun _ => for_each ys body) h.
Proof.
  revert h. induction xs as [|x xs IH]; intros h; [done|].
  cbn [for_each app]. unfold run, mbind, M_bind in *.
  destruct (body x h) as [[[] h']|e]; [apply IH | done].
Qed.

(** Two nested loops are one loop over the pairs they visit. *)
Lemma for_each_nested {A B} (xs : list A) (f : A -> list B)
    (body : A -> B -> M unit) (h : heap) :
  run (for_each xs (fun x => for_each (f x) (body x))) h =
  run (for_each (x ← xs; pair x <$> f x) (fun xy => body xy.1 xy.2)) h.
Proof.
  revert h. induction xs as [|x xs IH]; intros h; [done|].
  rewrite bind_cons, for_each_app. cbn [for_each].
  assert (Hin : forall h,
    run (for_each (pair x <$> f x) (fun xy => body xy.1 xy.2)) h =
    run (for_each (f x) (body x)) h).
  { induction (f x) as [|y ys IHy]; intros h0; [done|].
    cbn [for_each fmap list_fmap fst snd]. unfold run, mbind, M_bind in *.
    destruct (body x y h0) as [[[] h']|e]; [apply IHy | done]. }
  unfold run, mbind, M_bind in *. rewrite Hin.
  destruct (for_each (f x) (body x) h) as [[[] h']|e]; [apply IH | done].
Qed.

(** A loop whose body rewrites the dictionary at [l] and nothing else
    rewrites it by the left fold of the bodies' effects. *)
Lemma for_each_updates {A} (xs : list A) (body : A -> M unit)
    (g : dict -> A -> dict) (l : nat) :
  (forall x (h : heap) d, x ∈ xs -> h !! l = Some d ->
     run (body x) h = Ok (tt, <[l := g d x]> h)) ->
  forall (h : heap) d, h !! l = Some d ->
    run (for_each xs body) h = Ok (tt, <[l := foldl g d xs]> h).
Proof.
  induction xs as [|x xs IH]; intros Hbody h d Hl.
  - cbn. by rewrite list_insert_id.
  - cbn [for_each foldl].
    erewrite run_bind; [|apply Hbody; [apply elem_of_cons; by left | done]].
    erewrite IH.
    + by rewrite list_insert_insert_eq.
    + intros y h0 d0 Hy. apply Hbody. apply elem_of_cons. by right.
    + apply list_lookup_insert_eq. by eapply lookup_lt_Some.
Qed.

End run_facts.

(** * The loops of the generator *)

Section generator_facts.

Lemma elem_of_range (a b k : Z) : k ∈ range a b <-> a <= k < b.
Proof. unfold range. rewrite elem_of_seqZ. lia. Qed.

Lemma elem_of_grid (c r : Z) :
  (c, r) ∈ grid <-> 65 <= c <= 90 /\ 1 <= r <= 50.
Proof.
  unfold grid. rewrite list_elem_of_bind. split.
  - intros (c' & Hin & Hc).
    apply list_elem_of_fmap in Hin as (r' & [= -> ->] & Hr).
    apply elem_of_range in Hc, Hr. lia.
  - intros [Hc Hr]. exists c. split.
    + apply list_elem_of_fmap. exists r. split; [done|].
      apply elem_of_range. lia.
    + apply elem_of_range. lia.
Qed.

Lemma NoDup_grid : NoDup grid.
Proof.
  unfold grid. apply NoDup_bind.
  - intros c1 c2 [c r] _ _ Hin1 Hin2.
    apply list_elem_of_fmap in Hin1 as (? & [= -> ->] & _).
    apply list_elem_of_fmap in Hin2 as (? & [= -> _] & _). done.
  - intros c _. apply NoDup_fmap_2; [|apply NoDup_seqZ].
    by intros r1 r2 [= ->].
  - apply NoDup_seqZ.
Qed.

Lemma length_grid : length grid = 1300%nat.
Proof. done. Qed.

(** The keys of the table are the identifiers of the cells of the grid,
    in the order of the grid. *)
Lemma dict_keys_table :
  dict_keys table = (fun cell => get_cell_id [cell.1] cell.2) <$> grid.
Proof. unfold dict_keys, table. by rewrite <- list_fmap_compose. Qed.

Lemma NoDup_dict_keys_table : NoDup (dict_keys table).
Proof.
  rewrite dict_keys_table. apply NoDup_fmap_2_strong; [|apply NoDup_grid].
  intros [c1 r1] [c2 r2] H1%elem_of_grid H2%elem_of_grid Heq. cbn in Heq.
  apply get_cell_id_inj in Heq as [-> ->]; [done|lia|lia].
Qed.

(** One pass through the loop body stores the entry of its cell. *)
Lemma cell_step_run (l : nat) (c r : Z) (h : heap) (d : dict) :
  1 <= c < 1114112 -> h !! l = Some d ->
  run (cell_step (VRef l) c r) h =
    Ok (tt, <[l := dict_set d (cell_entry (c, r)).1 (cell_entry (c, r)).2]> h).
Proof.
  intros Hc Hl. unfold cell_step, chr.
  rewrite !bool_decide_true by lia.
  erewrite run_bind by apply run_lift_ok.
  unfold cell_entry, cell_content. cbn [fst snd].
  change (lit "A") with [65].
  destruct (decide (c = 65)) as [->|Hne].
  - rewrite decide_True by done. by apply run_setitem.
  - rewrite decide_False by (intros [= ?]; done).
    erewrite run_bind by apply run_lift_ok.
    by apply run_setitem.
Qed.

(** The two loops, run on a store whose object [l] is the dictionary
    [d], assign the entries of the grid to it one after the other. *)
Lemma loops_run (l : nat) (h : heap) (d : dict) :
  h !! l = Some d ->
  run (for_each (range 65 91) (fun col_code =>
         for_each (range 1 51) (fun row =>
           cell_step (VRef l) col_code row))) h =
    Ok (tt, <[l := foldl (fun d kv => dict_set d kv.1 kv.2) d table]> h).
Proof.
  intros Hl. rewrite (for_each_nested _ (fun _ => range 1 51)).
  fold grid. unfold table. rewrite foldl_fmap.
  apply for_each_updates; [|done].
  intros [c r] h0 d0 Hin%elem_of_grid Hl0.
  apply cell_step_run; [lia|done].
Qed.

(** A call from any store returns a reference to a new document whose
    only slot refers to the new table; the objects that were there are
    untouched. *)
Lemma gen_megatable_run (h : heap) :
  run gen_megatable h =
    Ok (VRef (S (length h)),
        h ++ [table; [(lit "inputs", VRef (length h))]]).
Proof.
  unfold gen_megatable.
  erewrite run_bind by apply run_new_dict.
  change (ord (lit "A")) with (Ok 65). change (ord (lit "Z")) with (Ok 90).
  erewrite run_bind by apply run_lift_ok.
  erewrite run_bind by apply run_lift_ok.
  change (90 + 1) with 91.
  erewrite run_bind.
  2:{ apply (loops_run (length h) _ []).
      by rewrite lookup_app_r, Nat.sub_diag by lia. }
  rewrite (foldl_dict_set_fresh table []) by apply NoDup_dict_keys_table.
  rewrite insert_app_r_alt, Nat.sub_diag by lia. cbn [insert list_insert app].
  rewrite run_new_dict, length_app, <- app_assoc. cbn [length app].
  by rewrite Nat.add_1_r.
Qed.

Lemma fixture_eq (h : heap) : fixture h = Some [(lit "inputs", table)].
Proof.
  unfold fixture. rewrite gen_megatable_run.
  unfold snapshot, deref.
  rewrite lookup_app_r by lia.
  replace (S (length h) - length h)%nat with 1%nat by lia.
  cbn [lookup list_lookup mbind option_bind mapM fst snd mret option_ret].
  rewrite lookup_app_r, Nat.sub_diag by lia. done.
Qed.

Lemma fixture_inputs_eq (h : heap) : fixture_inputs h = Some table.
Proof. unfold fixture_inputs. by rewrite fixture_eq. Qed.

End generator_facts.

(** * The table *)

Section table_facts.

(** Every cell of the grid is in the table under its identifier. *)
Lemma table_lookup (c r : Z) :
  65 <= c <= 90 -> 1 <= r <= 50 ->
  dict_get table (get_cell_id [c] r) = Some (VStr (cell_content c r)).
Proof.
  intros Hc Hr. apply dict_get_elem_of; [apply NoDup_dict_keys_table|].
  unfold table. apply list_elem_of_fmap. exists (c, r).
  split; [done|]. by apply elem_of_grid.
Qed.

(** Nothing else is in the table. *)
Lemma table_lookup_inv (k : pystr) (v : value) :
  dict_get table k = Some v ->
  exists c r, 65 <= c <= 90 /\ 1 <= r <= 50 /\
    k = get_cell_id [c] r /\ v = VStr (cell_content c r).
Proof.
  intros Hk%dict_get_Some. unfold table in Hk.
  apply list_elem_of_fmap in Hk as ([c r] & [= -> ->] & Hin%elem_of_grid).
  exists c, r. cbn. tauto.
Qed.

Lemma formula_ref_formula (k : pystr) :
  formula_ref (lit "= " ++ k ++ lit " * 1.25") = Some k.
Proof.
  change (lit "= " ++ k ++ lit " * 1.25")
    with (61 :: 32 :: (k ++ lit " * 1.25")).
  cbn [formula_ref]. rewrite length_app.
  change (length (lit " * 1.25")) with 7%nat. rewrite Nat.add_sub.
  rewrite drop_app_length, take_app_length. by rewrite decide_True.
Qed.

(** The decimal string of a positive number is not a formula. *)
Lemma formula_ref_str (r : Z) : 1 <= r -> formula_ref (str r) = None.
Proof.
  intros Hr. rewrite str_nonneg by lia.
  destruct (digits_head_nonzero r Hr) as (c & s & -> & Hc).
  unfold formula_ref. destruct c as [|p|p]; try done.
  do 6 (destruct p as [p|p|]; try done). lia.
Qed.

Lemma column_of_get_cell_id (c r : Z) : column_of (get_cell_id [c] r) = c.
Proof. done. Qed.

(** The references of the table: a cell right of column A refers to its
    left neighbour, a cell of column A to nothing. *)
Lemma refers_table (k k' : pystr) :
  refers table k k' <->
  exists c r, 66 <= c <= 90 /\ 1 <= r <= 50 /\
    k = get_cell_id [c] r /\ k' = get_cell_id [c - 1] r.
Proof.
  unfold refers. split.
  - intros (v & Hk & Hv).
    apply table_lookup_inv in Hk as (c & r & Hc & Hr & -> & [= ->]).
    unfold cell_content in Hv. destruct (decide (c = 65)) as [->|Hne].
    + rewrite formula_ref_str in Hv by lia. done.
    + rewrite formula_ref_formula in Hv. injection Hv as <-.
      exists c, r. split_and!; [lia|lia|lia|lia|done|done].
  - intros (c & r & Hc & Hr & -> & ->).
    exists (cell_content c r). split; [apply table_lookup; lia|].
    unfold cell_content. rewrite decide_False by lia.
    apply formula_ref_formula.
Qed.

(** From column [65 + n], [n] references lead to column A of the row. *)
Lemma chase_table (n : nat) (r : Z) :
  (n <= 25)%nat -> 1 <= r <= 50 ->
  chase table n (get_cell_id [65 + Z.of_nat n] r) = Some (get_cell_id [65] r).
Proof.
  intros Hn Hr. induction n as [|n IH].
  - done.
  - cbn [chase]. rewrite table_lookup by lia.
    unfold cell_content. rewrite decide_False by lia.
    rewrite formula_ref_formula. cbn [mbind option_bind].
    replace (65 + Z.of_nat (S n) - 1) with (65 + Z.of_nat n) by lia.
    apply IH. lia.
Qed.

End table_facts.

(** * The fixture *)

Section fixture_facts.

(** A document object and the table it refers to, read out of a store
    that holds them side by side. *)
Lemma snapshot_doc (h rest : heap) (t : dict) :
  snapshot (h ++ t :: [(lit "inputs", VRef (length h))] :: rest)
           (VRef (S (length h))) = Some [(lit "inputs", t)].
Proof.
  unfold snapshot, deref.
  rewrite lookup_app_r by lia.
  replace (S (length h) - length h)%nat with 1%nat by lia.
  cbn [lookup list_lookup mbind option_bind mapM fst snd mret option_ret].
  rewrite lookup_app_r, Nat.sub_diag by lia. done.
Qed.

Lemma call_twice_run (h : heap) :
  run call_twice h =
    Ok ((VRef (S (length h)), VRef (S (S (S (length h))))),
        h ++ [table; [(lit "inputs", VRef (length h))];
              table; [(lit "inputs", VRef (S (S (length h))))]]).
Proof.
  unfold call_twice.
  erewrite run_bind by apply gen_megatable_run.
  erewrite run_bind by apply gen_megatable_run.
  rewrite length_app, <- app_assoc. cbn [length app].
  by replace (length h + 2)%nat with (S (S (length h))) by lia.
Qed.

(** The generator is its two loops flattened into one loop over the
    grid. *)
Lemma gen_megatable_flat (h : heap) :
  run gen_megatable h =
  run (inputs ← new_dict [];
       for_each grid (fun cell => cell_step inputs cell.1 cell.2);;
       new_dict [(lit "inputs", inputs)]) h.
Proof.
  unfold gen_megatable.
  rewrite !(run_bind (new_dict []) _ h _ _ (run_new_dict [] h)).
  change (ord (lit "A")) with (Ok 65). change (ord (lit "Z")) with (Ok 90).
  erewrite run_bind by apply run_lift_ok.
  erewrite run_bind by apply run_lift_ok.
  change (range 65 (90 + 1)) with (range 65 91).
  pose proof (for_each_nested (range 65 91) (fun _ => range 1 51)
                (cell_step (VRef (length h)))) as Hflat.
  fold grid in Hflat. unfold run, mbind, M_bind in *. by rewrite Hflat.
Qed.

(** The loops run a recording body once for each cell of the grid, in
    the order of the grid. *)
Lemma table_loops_record (log : nat) (h : heap) (d : dict) :
  h !! log = Some d ->
  run (table_loops 65 90 (record_pass log)) h =
    Ok (tt, <[log := d ++ ((fun cell => ([cell.1; cell.2], VStr [])) <$> grid)]>
              h).
Proof.
  intros Hlog. unfold table_loops. change (90 + 1) with 91.
  rewrite (for_each_nested _ (fun _ => range 1 51)). fold grid.
  erewrite (for_each_updates grid _
              (fun d cell => d ++ [([cell.1; cell.2], VStr [])])); [| |done].
  - do 3 f_equal. clear Hlog. revert d.
    induction grid as [|cell cells IH]; intros d.
    + by rewrite app_nil_r.
    + cbn [foldl fmap list_fmap]. rewrite IH. by rewrite <- app_assoc.
  - intros [c r] h0 d0 _ Hl0. unfold run, record_pass. by rewrite Hl0.
Qed.

End fixture_facts.

(** * Properties of the generated fixture *)

(** C1: for every column [c] in 'B'..'Z' and every row [r] in 1..50, the
    inputs mapping of the fixture maps the identifier of cell (c, r) to
    exactly ["= "], then the identifier of the cell of the column just
    before [c] in the same row, then [" * 1.25"]; the identifier referred to
    has the letter before [c] and the same two row digits. *)
Theorem formula_cells_refer_left (h : heap) (c r : Z) :
  66 <= c <= 90 -> 1 <= r <= 50 ->
  exists inputs : dict,
    fixture_inputs h = Some inputs /\
    dict_get inputs (get_cell_id [c] r) =
      Some (VStr (lit "= " ++ get_cell_id [c - 1] r ++ lit " * 1.25")) /\
    formula_ref (lit "= " ++ get_cell_id [c - 1] r ++ lit " * 1.25") =
      Some (get_cell_id [c - 1] r) /\
    get_cell_id [c] r = [c; digit_char (r / 10); digit_char (r mod 10)] /\
    get_cell_id [c - 1] r =
      [c - 1; digit_char (r / 10); digit_char (r mod 10)].
Proof.
  intros Hc Hr. exists table. split_and!.
  - apply fixture_inputs_eq.
  - rewrite table_lookup by lia. unfold cell_content.
    by rewrite decide_False by lia.
  - apply formula_ref_formula.
  - apply (get_cell_id_two_digits [c]). lia.
  - apply (get_cell_id_two_digits [c - 1]). lia.
Qed.

Lemma formula_cells_refer_left_witness :
  66 <= 67 <= 90 /\ 1 <= 7 <= 50 /\
  exists inputs : dict,
    fixture_inputs [] = Some inputs /\
    dict_get inputs (get_cell_id [67] 7) =
      Some (VStr (lit "= " ++ get_cell_id [67 - 1] 7 ++ lit " * 1.25")) /\
    formula_ref (lit "= " ++ get_cell_id [67 - 1] 7 ++ lit " * 1.25") =
      Some (get_cell_id [67 - 1] 7) /\
    get_cell_id [67] 7 = [67; digit_char (7 / 10); digit_char (7 mod 10)] /\
    get_cell_id [67 - 1] 7 =
      [67 - 1; digit_char (7 / 10); digit_char (7 mod 10)].
Proof.
  split; [lia|]. split; [lia|].
  apply (formula_cells_refer_left [] 67 7); lia.
Defined.

(** C2: for every row [r] in 1..50, the inputs mapping maps the column-A
    identifier (["A"], then [r] zero-padded to two digits) to the plain
    decimal string of [r]: decimal digits only, denoting [r], with no
    leading zero. *)
Theorem column_A_cells_hold_row_number (h : heap) (r : Z) :
  1 <= r <= 50 ->
  exists inputs : dict,
    fixture_inputs h = Some inputs /\
    dict_get inputs (lit "A" ++ [digit_char (r / 10); digit_char (r mod 10)]) =
      Some (VStr (str r)) /\
    Forall is_digit_char (str r) /\
    decimal_value (str r) = r /\
    (exists c s, str r = c :: s /\ 49 <= c <= 57) /\
    (r < 10 -> str r = [digit_char r]).
Proof.
  intros Hr. exists table. split_and!.
  - apply fixture_inputs_eq.
  - rewrite <- (get_cell_id_two_digits (lit "A")) by lia.
    change (lit "A") with [65]. rewrite table_lookup by lia. done.
  - rewrite str_nonneg by lia. apply digits_all_digit_chars. lia.
  - rewrite str_nonneg by lia. apply decimal_value_digits. lia.
  - rewrite str_nonneg by lia. apply digits_head_nonzero. lia.
  - intros Hlt. rewrite str_nonneg by lia. apply digits_one. lia.
Qed.

Lemma column_A_cells_hold_row_number_witness :
  1 <= 1 <= 50 /\
  exists inputs : dict,
    fixture_inputs [] = Some inputs /\
    dict_get inputs (lit "A" ++ [digit_char (1 / 10); digit_char (1 mod 10)]) =
      Some (VStr (str 1)) /\
    Forall is_digit_char (str 1) /\
    decimal_value (str 1) = 1 /\
    (exists c s, str 1 = c :: s /\ 49 <= c <= 57) /\
    (1 < 10 -> str 1 = [digit_char 1]).
Proof.
  split; [lia|]. apply (column_A_cells_hold_row_number [] 1). lia.
Defined.

(** C3: the document the generator returns has exactly one top-level key,
    ["inputs"], and the mapping under it has exactly 1300 entries, with
    pairwise distinct keys. *)
Theorem fixture_shape (h : heap) :
  exists inputs : dict,
    fixture h = Some [(lit "inputs", inputs)] /\
    length inputs = 1300%nat /\
    NoDup (dict_keys inputs).
Proof.
  exists table. split_and!.
  - apply fixture_eq.
  - unfold table. rewrite length_fmap. apply length_grid.
  - apply NoDup_dict_keys_table.
Qed.

(** C4: for every column letter [c] in 'A'..'Z' and every row [r] in
    1..50, [get_cell_id] returns the letter followed by the row zero-padded
    to two digits: one letter, then exactly two decimal digits that denote
    [r]. *)
Theorem get_cell_id_used_domain (c r : Z) :
  65 <= c <= 90 -> 1 <= r <= 50 ->
  exists col d1 d0,
    chr c = Ok col /\
    get_cell_id col r = [c; d1; d0] /\
    is_digit_char d1 /\ is_digit_char d0 /\
    decimal_value [d1; d0] = r /\
    (r < 10 -> d1 = 48 /\ str r = [d0]) /\
    (10 <= r -> str r = [d1; d0]).
Proof.
  intros Hc Hr.
  exists [c], (digit_char (r / 10)), (digit_char (r mod 10)).
  pose proof (Z.div_mod r 10). pose proof (Z.mod_pos_bound r 10).
  assert (0 <= r / 10 < 10)
    by (split; [apply Z.div_pos | apply Z.div_lt_upper_bound]; lia).
  unfold is_digit_char, digit_char. split_and!; try lia.
  - unfold chr. by rewrite bool_decide_true by lia.
  - apply (get_cell_id_two_digits [c]). lia.
  - cbn. lia.
  - intros Hlt. rewrite Z.div_small by lia.
    rewrite str_nonneg, digits_one, Z.mod_small by lia. done.
  - intros Hge. rewrite str_nonneg, digits_two by lia. done.
Qed.

Lemma get_cell_id_used_domain_witness :
  65 <= 67 <= 90 /\ 1 <= 7 <= 50 /\
  exists col d1 d0,
    chr 67 = Ok col /\
    get_cell_id col 7 = [67; d1; d0] /\
    is_digit_char d1 /\ is_digit_char d0 /\
    decimal_value [d1; d0] = 7 /\
    (7 < 10 -> d1 = 48 /\ str 7 = [d0]) /\
    (10 <= 7 -> str 7 = [d1; d0]).
Proof.
  split; [lia|]. split; [lia|]. apply (get_cell_id_used_domain 67 7); lia.
Defined.

Example get_cell_id_C7 : get_cell_id (lit "C") 7 = lit "C07".
Proof. reflexivity. Qed.

(** C5: the keys of the inputs mapping come in column-major order: the
    sequence of keys is the one obtained by going through the letters
    'A'..'Z' outermost and the rows 1..50 innermost, so it starts
    A01 .. A50, B01 and ends with Z50. *)
Theorem keys_column_major (h : heap) :
  exists inputs : dict,
    fixture_inputs h = Some inputs /\
    dict_keys inputs =
      (col ← lit "ABCDEFGHIJKLMNOPQRSTUVWXYZ";
       row ← range 1 51;
       [get_cell_id [col] row]) /\
    dict_keys inputs !! 0%nat = Some (lit "A01") /\
    dict_keys inputs !! 49%nat = Some (lit "A50") /\
    dict_keys inputs !! 50%nat = Some (lit "B01") /\
    dict_keys inputs !! 1299%nat = Some (lit "Z50").
Proof.
  exists table. split; [apply fixture_inputs_eq|].
  assert (Hkeys : dict_keys table =
    (col ← lit "ABCDEFGHIJKLMNOPQRSTUVWXYZ";
     row ← range 1 51; [get_cell_id [col] row])).
  { rewrite dict_keys_table. unfold grid.
    change (lit "ABCDEFGHIJKLMNOPQRSTUVWXYZ") with (range 65 91).
    induction (range 65 91) as [|c cs IH]; [done|].
    rewrite !bind_cons, fmap_app, IH. done. }
  split; [done|]. rewrite Hkeys. by vm_compute.
Qed.

(** C6: the examples and the boundary values of the fixture:
    [get_cell_id("B", 7)] is ["B07"]; the inputs mapping holds ["7"] under
    ["A07"], ["= A07 * 1.25"] under ["B07"], ["= B07 * 1.25"] under ["C07"]
    and ["1"] under ["A01"]; identifiers of row 1 end in ["01"], those of
    row 50 in ["50"]; and every identifier that is a key or is referred to
    by a formula has a column letter in 'A'..'Z'. *)
Theorem fixture_examples (h : heap) :
  get_cell_id (lit "B") 7 = lit "B07" /\
  (forall col, get_cell_id col 1 = col ++ lit "01") /\
  (forall col, get_cell_id col 50 = col ++ lit "50") /\
  exists inputs : dict,
    fixture_inputs h = Some inputs /\
    dict_get inputs (lit "A07") = Some (VStr (lit "7")) /\
    dict_get inputs (lit "B07") = Some (VStr (lit "= A07 * 1.25")) /\
    dict_get inputs (lit "C07") = Some (VStr (lit "= B07 * 1.25")) /\
    dict_get inputs (lit "A01") = Some (VStr (lit "1")) /\
    (forall k, is_Some (dict_get inputs k) -> 65 <= column_of k <= 90) /\
    (forall k k', refers inputs k k' -> 65 <= column_of k' <= 90).
Proof.
  split; [done|]. split; [done|]. split; [done|].
  exists table. split; [apply fixture_inputs_eq|].
  split_and!.
  - apply (table_lookup 65 7); lia.
  - apply (table_lookup 66 7); lia.
  - apply (table_lookup 67 7); lia.
  - apply (table_lookup 65 1); lia.
  - intros k [v Hv]. apply table_lookup_inv in Hv as (c & r & Hc & _ & -> & _).
    by rewrite column_of_get_cell_id.
  - intros k k' (c & r & Hc & _ & _ & ->)%refers_table.
    rewrite column_of_get_cell_id. lia.
Qed.

(** C7: the generator is deterministic.  From any two stores it returns
    the same document: the same keys in the same order with the same
    values.  Two calls in a row on one store return two distinct objects
    that read as that same document. *)
Theorem gen_megatable_deterministic (h1 h2 : heap) :
  is_Some (fixture h1) /\
  fixture h1 = fixture h2 /\
  exists doc1 doc2 (h' : heap),
    run call_twice h1 = Ok ((doc1, doc2), h') /\
    doc1 <> doc2 /\
    snapshot h' doc1 = fixture h1 /\
    snapshot h' doc2 = fixture h1.
Proof.
  rewrite !fixture_eq. split; [done|]. split; [done|].
  eexists _, _, _. split; [apply call_twice_run|].
  split_and!.
  - intros [= Heq]. lia.
  - apply snapshot_doc.
  - pose proof (snapshot_doc
      (h1 ++ [table; [(lit "inputs", VRef (length h1))]]) [] table) as Hs.
    rewrite length_app, <- app_assoc in Hs. cbn [length app] in Hs.
    by replace (length h1 + 2)%nat with (S (S (length h1))) in Hs by lia.
Qed.

(** C8: the generator is total.  From every store it returns a document
    and raises nothing.  It is its two nested loops, 26 columns by 50 rows,
    around the body: loops that run their body exactly once for each cell
    of the grid, in the order of the grid, which makes exactly 1300 passes;
    and each of the 1300 passes of its own body leaves an entry in the
    table. *)
Theorem gen_megatable_total (h : heap) :
  (exists doc (h' : heap), run gen_megatable h = Ok (doc, h')) /\
  gen_megatable =
    (inputs ← new_dict [];
     a ← lift (ord (lit "A"));
     z ← lift (ord (lit "Z"));
     table_loops a z (cell_step inputs);;
     new_dict [(lit "inputs", inputs)]) /\
  ord (lit "A") = Ok 65 /\ ord (lit "Z") = Ok 90 /\
  (forall (log : nat) (d : dict), h !! log = Some d ->
     exists passes : dict,
       run (table_loops 65 90 (record_pass log)) h =
         Ok (tt, <[log := d ++ passes]> h) /\
       passes = (fun cell => ([cell.1; cell.2], VStr [])) <$> grid /\
       length passes = 1300%nat) /\
  (exists inputs : dict,
     fixture_inputs h = Some inputs /\ length inputs = 1300%nat) /\
  run gen_megatable h =
    run (inputs ← new_dict [];
         for_each grid (fun cell => cell_step inputs cell.1 cell.2);;
         new_dict [(lit "inputs", inputs)]) h /\
  grid = (col_code ← range 65 91; row ← range 1 51; [(col_code, row)]) /\
  length (range 65 91) = 26%nat /\
  length (range 1 51) = 50%nat /\
  length grid = 1300%nat /\
  NoDup grid.
Proof.
  split_and!.
  - eexists _, _. apply gen_megatable_run.
  - reflexivity.
  - done.
  - done.
  - intros log d Hlog. eexists. split; [|split; [reflexivity|]].
    + apply table_loops_record. done.
    + rewrite length_fmap. apply length_grid.
  - exists table. split; [apply fixture_inputs_eq|].
    unfold table. rewrite length_fmap. apply length_grid.
  - apply gen_megatable_flat.
  - done.
  - done.
  - done.
  - apply length_grid.
  - apply NoDup_grid.
Qed.

(** C9: every formula of the inputs mapping refers to an identifier that
    is a key of the mapping; a reference goes to the column just to the
    left in the same row; the references admit no infinite chain, hence no
    cycle; and from every cell the chain of references ends, after as many
    steps as the cell is columns away from column A, at the column-A cell
    of its row, which holds a literal. *)
Theorem reference_graph (h : heap) :
  exists inputs : dict,
    fixture_inputs h = Some inputs /\
    (forall k k', refers inputs k k' -> is_Some (dict_get inputs k')) /\
    (forall k k', refers inputs k k' ->
       column_of k' = column_of k - 1 /\ drop 1 k' = drop 1 k) /\
    well_founded (fun k' k => refers inputs k k') /\
    (forall k, is_Some (dict_get inputs k) ->
       exists c r, 65 <= c <= 90 /\ 1 <= r <= 50 /\ k = get_cell_id [c] r) /\
    (forall c r, 65 <= c <= 90 -> 1 <= r <= 50 ->
       chase inputs (Z.to_nat (c - 65)) (get_cell_id [c] r) =
         Some (get_cell_id [65] r) /\
       dict_get inputs (get_cell_id [65] r) = Some (VStr (str r)) /\
       formula_ref (str r) = None).
Proof.
  exists table. split; [apply fixture_inputs_eq|]. split_and!.
  - intros k k' (c & r & Hc & Hr & _ & ->)%refers_table.
    rewrite table_lookup by lia. done.
  - intros k k' (c & r & Hc & Hr & -> & ->)%refers_table.
    by rewrite !column_of_get_cell_id.
  - apply (well_founded_lt_compat _ (fun k => Z.to_nat (column_of k))).
    intros k' k (c & r & Hc & Hr & -> & ->)%refers_table.
    rewrite !column_of_get_cell_id. lia.
  - intros k [v Hv]. apply table_lookup_inv in Hv as (c & r & Hc & Hr & -> & _).
    by exists c, r.
  - intros c r Hc Hr. split_and!.
    + pose proof (chase_table (Z.to_nat (c - 65)) r) as Hchase.
      rewrite Z2Nat.id in Hchase by lia.
      replace (65 + (c - 65)) with c in Hchase by lia.
      apply Hchase; lia.
    + apply (table_lookup 65 r); lia.
    + apply formula_ref_str. lia.
Qed.

(** C10, as the code has it: the zero padding of [get_cell_id] is a
    minimum width.  For a row from 0 up to the limit of the conversion, a
    row of three or more digits comes out whole, the column followed by all
    the digits of the row; rows 0..9 get one zero in front and rows 10..99
    are left as they are; so the identifier has two row digits exactly when
    the row is at most 99, row 0 included. *)
Theorem get_cell_id_min_width (col : pystr) (r : Z) :
  0 <= r -> convertible r ->
  Forall is_digit_char (str r) /\
  decimal_value (str r) = r /\
  (r < 10 ->
   get_cell_id col r = col ++ 48 :: str r /\ length (str r) = 1%nat) /\
  (10 <= r -> get_cell_id col r = col ++ str r) /\
  (10 <= r < 100 -> length (str r) = 2%nat) /\
  (100 <= r -> (3 <= length (str r))%nat) /\
  (length (get_cell_id col r) = (length col + 2)%nat <-> r <= 99).
Proof.
  intros Hr _. rewrite str_nonneg by lia. unfold get_cell_id.
  split_and!.
  - apply digits_all_digit_chars. lia.
  - apply decimal_value_digits. lia.
  - intros Hlt. rewrite format_02d_one, digits_one by lia. done.
  - intros Hge. by rewrite format_02d_wide.
  - intros Hlt. by rewrite digits_two.
  - apply digits_length_ge_3.
  - rewrite length_app. destruct (Z_lt_ge_dec r 100) as [Hlt|Hge].
    + rewrite format_02d_two_digits by lia. cbn [length]. lia.
    + rewrite format_02d_wide by lia.
      pose proof (digits_length_ge_3 r). lia.
Qed.

Lemma get_cell_id_min_width_witness :
  0 <= 123 /\ convertible 123 /\
  Forall is_digit_char (str 123) /\
  decimal_value (str 123) = 123 /\
  (123 < 10 ->
   get_cell_id (lit "A") 123 = lit "A" ++ 48 :: str 123 /\
   length (str 123) = 1%nat) /\
  (10 <= 123 -> get_cell_id (lit "A") 123 = lit "A" ++ str 123) /\
  (10 <= 123 < 100 -> length (str 123) = 2%nat) /\
  (100 <= 123 -> (3 <= length (str 123))%nat) /\
  (length (get_cell_id (lit "A") 123) = (length (lit "A") + 2)%nat <->
   123 <= 99).
Proof.
  split; [lia|]. split; [by vm_compute|].
  apply (get_cell_id_min_width (lit "A") 123); [lia | by vm_compute].
Defined.

(** C10, as the specification has it, fails at row 0: its identifier has
    the column letter and two digits, and 0 is not among 1..99. *)
Lemma two_digit_shape_at_row_0 :
  get_cell_id (lit "A") 0 = lit "A00" /\
  length (get_cell_id (lit "A") 0) = (length (lit "A") + 2)%nat /\
  ~ (1 <= 0 <= 99).
Proof. split; [reflexivity|]. split; [reflexivity|lia]. Qed.

Example get_cell_id_A123 : get_cell_id (lit "A") 123 = lit "A123".
Proof. reflexivity. Qed.

Example get_cell_id_A0 : get_cell_id (lit "A") 0 = lit "A00".
Proof. reflexivity. Qed.

(** * Beyond the grid: identifiers of arbitrary rows *)

Section row_facts.

Lemma digits_nonempty_digit (n : Z) :
  0 <= n -> exists c s, digits n = c :: s /\ is_digit_char c.
Proof.
  intros Hn. pose proof (digits_all_digit_chars n Hn) as Hall.
  destruct (digits n) as [|c s] eqn:E.
  - exfalso. rewrite digits_unfold in E by done.
    destruct (n <? 10); [done|]. by apply app_nil in E as [_ ?].
  - exists c, s. split; [done|]. by apply Forall_cons in Hall as [? _].
Qed.

Lemma decimal_value_zeros (k : nat) (s : pystr) :
  decimal_value (replicate k 48 ++ s) = decimal_value s.
Proof.
  unfold decimal_value. rewrite foldl_app. f_equal.
  induction k as [|k IH]; [done|]. cbn [replicate foldl].
  by replace (10 * 0 + (48 - 48)) with 0 by lia.
Qed.

Lemma str_negative (r : Z) : r < 0 -> str r = 45 :: digits (- r).
Proof.
  intros Hr. unfold str.
  replace (r <? 0) with true; [done|]. symmetry. apply Z.ltb_lt. lia.
Qed.

(** With a sign in front, every number already fills the two columns. *)
Lemma format_02d_negative (r : Z) : r < 0 -> format_0d 2 r = str r.
Proof.
  intros Hr. rewrite str_negative by done. unfold format_0d.
  replace (r <? 0) with true by (symmetry; apply Z.ltb_lt; lia).
  rewrite Z.abs_neq by lia.
  destruct (digits_nonempty_digit (- r)) as (c & s & -> & _); [lia|].
  done.
Qed.

Lemma length_str_negative (r : Z) : r < 0 -> (2 <= length (str r))%nat.
Proof.
  intros Hr. rewrite str_negative by done.
  destruct (digits_nonempty_digit (- r)) as (c & s & -> & _); [lia|].
  cbn. lia.
Qed.

(** The padded row is [str] of the row with zeros in front up to two
    characters, for every integer. *)
Lemma format_02d_str (r : Z) :
  format_0d 2 r = replicate (2 - length (str r)) 48 ++ str r.
Proof.
  destruct (Z_lt_ge_dec r 0) as [Hneg|Hpos].
  - rewrite format_02d_negative by done.
    pose proof (length_str_negative r Hneg).
    by replace (2 - length (str r))%nat with 0%nat by lia.
  - rewrite str_nonneg by lia. apply format_0d_nonneg. lia.
Qed.

Lemma row_of_digit_head (c : Z) (s : pystr) :
  is_digit_char c -> row_of (c :: s) = decimal_value (c :: s).
Proof.
  unfold is_digit_char, row_of. intros Hc. by rewrite decide_False by lia.
Qed.

Lemma row_of_str (r : Z) : row_of (str r) = r.
Proof.
  destruct (Z_lt_ge_dec r 0) as [Hneg|Hpos].
  - rewrite str_negative by done. unfold row_of.
    rewrite decide_True by done. rewrite decimal_value_digits; lia.
  - rewrite str_nonneg by lia.
    destruct (digits_nonempty_digit r) as (c & s & E & Hc); [lia|].
    rewrite E, row_of_digit_head, <- E by done.
    apply decimal_value_digits. lia.
Qed.

Lemma row_of_format_02d (r : Z) : row_of (format_0d 2 r) = r.
Proof.
  rewrite format_02d_str.
  destruct (2 - length (str r))%nat as [|k] eqn:Ek; [apply row_of_str|].
  assert (Hr : 0 <= r).
  { destruct (Z_lt_ge_dec r 0) as [Hneg|]; [|lia].
    pose proof (length_str_negative r Hneg). lia. }
  cbn [replicate app]. rewrite row_of_digit_head by (unfold is_digit_char; lia).
  change (48 :: replicate k 48 ++ str r) with (replicate (S k) 48 ++ str r).
  rewrite (decimal_value_zeros (S k)), str_nonneg by lia.
  apply decimal_value_digits. lia.
Qed.

End row_facts.

(** X1: identifiers are unambiguous among column names of one length.
    Two calls of [get_cell_id] with columns of the same length and any
    integer rows, negative or of any number of digits, give the same
    identifier only for the same column and the same row. *)
Theorem get_cell_id_injective (col1 col2 : pystr) (row1 row2 : Z) :
  length col1 = length col2 ->
  get_cell_id col1 row1 = get_cell_id col2 row2 ->
  col1 = col2 /\ row1 = row2.
Proof.
  unfold get_cell_id. intros Hlen Heq.
  apply app_inj_1 in Heq as [-> Hrow]; [|done]. split; [done|].
  rewrite <- (row_of_format_02d row1), <- (row_of_format_02d row2).
  by rewrite Hrow.
Qed.

Lemma get_cell_id_injective_witness :
  length (lit "Q") = length (lit "Q") /\
  get_cell_id (lit "Q") (-3) = get_cell_id (lit "Q") (-3) /\
  lit "Q" = lit "Q" /\ -3 = -3.
Proof.
  split; [reflexivity|]. split; [reflexivity|].
  apply (get_cell_id_injective (lit "Q") (lit "Q") (-3) (-3)); reflexivity.
Defined.

(** X2: for every integer row within the limit of the conversion, the row
    part of an identifier is [str] of the row with zeros in front up to two
    characters: nothing is cut off, the identifier has the length of the
    column plus the larger of 2 and the length of [str(row)], a negative
    row keeps its sign and gets no zero, and the row is read back from the
    row part. *)
Theorem get_cell_id_row_part (col : pystr) (row : Z) :
  convertible row ->
  get_cell_id col row =
    col ++ replicate (2 - length (str row)) 48 ++ str row /\
  length (get_cell_id col row) = (length col + 2 `max` length (str row))%nat /\
  row_of (drop (length col) (get_cell_id col row)) = row /\
  (row < 0 -> get_cell_id col row = col ++ 45 :: digits (- row)).
Proof.
  intros _. unfold get_cell_id. split_and!.
  - by rewrite format_02d_str.
  - rewrite format_02d_str, !length_app, length_replicate. lia.
  - rewrite drop_app_length. apply row_of_format_02d.
  - intros Hneg. by rewrite format_02d_negative, str_negative.
Qed.

Lemma get_cell_id_row_part_witness :
  convertible (-5) /\
  get_cell_id (lit "A") (-5) =
    lit "A" ++ replicate (2 - length (str (-5))) 48 ++ str (-5) /\
  length (get_cell_id (lit "A") (-5)) =
    (length (lit "A") + 2 `max` length (str (-5)))%nat /\
  row_of (drop (length (lit "A")) (get_cell_id (lit "A") (-5))) = -5 /\
  (-5 < 0 -> get_cell_id (lit "A") (-5) = lit "A" ++ 45 :: digits (- -5)).
Proof.
  split; [by vm_compute|].
  apply (get_cell_id_row_part (lit "A") (-5)). by vm_compute.
Defined.

(** X3: with column names of different lengths identifiers can collide: a
    column name that ends in a digit [d] with a two-digit row gives the
    identifier of the shorter column name with the three-digit row that
    starts with [d]. *)
Theorem get_cell_id_collision (col : pystr) (d row : Z) :
  1 <= d <= 9 -> 10 <= row < 100 ->
  get_cell_id (col ++ [digit_char d]) row = get_cell_id col (100 * d + row).
Proof.
  intros Hd Hr. unfold get_cell_id.
  rewrite !format_02d_wide by lia. rewrite <- app_assoc. f_equal.
  rewrite (digits_snoc (100 * d + row)) by lia.
  replace ((100 * d + row) / 10) with (10 * d + row / 10).
  2:{ apply (Z.div_unique_pos _ _ _ (row mod 10)).
      - pose proof (Z.mod_pos_bound row 10). lia.
      - pose proof (Z.div_mod row 10). lia. }
  replace ((100 * d + row) mod 10) with (row mod 10).
  2:{ apply (Z.mod_unique_pos _ _ (10 * d + row / 10)).
      - pose proof (Z.mod_pos_bound row 10). lia.
      - pose proof (Z.div_mod row 10). lia. }
  assert (Hq : 1 <= row / 10 <= 9).
  { split; [apply Z.div_le_lower_bound; lia|].
    assert (row / 10 < 10) by (apply Z.div_lt_upper_bound; lia). lia. }
  rewrite (digits_two (10 * d + row / 10)) by lia.
  replace ((10 * d + row / 10) / 10) with d
    by (apply (Z.div_unique_pos _ _ _ (row / 10)); lia).
  replace ((10 * d + row / 10) mod 10) with (row / 10)
    by (apply (Z.mod_unique_pos _ _ d); lia).
  rewrite (digits_two row) by lia. done.
Qed.

Lemma get_cell_id_collision_witness :
  1 <= 1 <= 9 /\ 10 <= 23 < 100 /\
  get_cell_id (lit "A" ++ [digit_char 1]) 23 =
    get_cell_id (lit "A") (100 * 1 + 23).
Proof.
  split; [lia|]. split; [lia|].
  apply (get_cell_id_collision (lit "A") 1 23); lia.
Defined.

(** X4: within the limit of the conversion [str] loses nothing: two
    integers with the same decimal string are the same integer, so two rows
    with the same column-A content are the same row; and reading the string
    back as a signed decimal gives the integer. *)
Theorem str_round_trip (row row' : Z) :
  convertible row -> convertible row' ->
  (str row = str row' -> row = row') /\
  row_of (str row) = row.
Proof.
  intros _ _. split; [|apply row_of_str].
  intros Heq. rewrite <- (row_of_str row), <- (row_of_str row').
  by rewrite Heq.
Qed.

Lemma str_round_trip_witness :
  convertible 42 /\ convertible 42 /\
  (str 42 = str 42 -> 42 = 42) /\
  row_of (str 42) = 42.
Proof.
  split; [by vm_compute|]. split; [by vm_compute|].
  apply (str_round_trip 42 42); by vm_compute.
Defined.

(** * Assignments to a dictionary of the store *)

Section setitem_facts.

Lemma dict_get_set {V} (d : list (pystr * V)) (k k' : pystr) (v : V) :
  dict_get (dict_set d k v) k' =
    if decide (k = k') then Some v else dict_get d k'.
Proof.
  induction d as [|[k0 v0] d IH].
  - cbn. by destruct (decide (k = k')).
  - cbn [dict_set]. destruct (decide (k0 = k)) as [->|Hne]; cbn [dict_get].
    + by destruct (decide (k = k')).
    + rewrite IH. destruct (decide (k0 = k')) as [->|]; [|done].
      by rewrite decide_False.
Qed.

Lemma dict_set_present {V} (d : list (pystr * V)) (k : pystr) (v : V) :
  k ∈ dict_keys d -> dict_keys (dict_set d k v) = dict_keys d.
Proof.
  unfold dict_keys. induction d as [|[k0 v0] d IH]; [by intros ?%elem_of_nil|].
  cbn. intros Hin. destruct (decide (k0 = k)) as [->|Hne]; [done|].
  cbn. f_equal. apply IH. apply elem_of_cons in Hin as [->|]; done.
Qed.

Lemma run_lift_raise {A} (e : exn) (h : heap) :
  run (lift (A:=A) (Raise e)) h = Raise e.
Proof. done. Qed.

End setitem_facts.

(** X5: after [target[k] = v] on a dictionary of the store, looking [k] up
    in it gives [v], every other key gives what it gave before, and no
    other object of the store has changed. *)
Theorem setitem_then_lookup (l : nat) (k : pystr) (v : value)
    (h : heap) (d : dict) :
  h !! l = Some d ->
  exists (h' : heap) (d' : dict),
    run (setitem (VRef l) k v) h = Ok (tt, h') /\
    h' !! l = Some d' /\
    (forall k', dict_get d' k' =
                  if decide (k = k') then Some v else dict_get d k') /\
    (forall l', l' <> l -> h' !! l' = h !! l') /\
    length h' = length h.
Proof.
  intros Hl. exists (<[l := dict_set d k v]> h), (dict_set d k v).
  split_and!.
  - by apply run_setitem.
  - apply list_lookup_insert_eq. by eapply lookup_lt_Some.
  - intros k'. apply dict_get_set.
  - intros l' Hne. by apply list_lookup_insert_ne.
  - apply length_insert.
Qed.

Lemma setitem_then_lookup_witness :
  ([[(lit "A01", VStr (lit "1"))]] : heap) !! 0%nat =
    Some [(lit "A01", VStr (lit "1"))] /\
  exists (h' : heap) (d' : dict),
    run (setitem (VRef 0) (lit "B01") (VStr (lit "x")))
        [[(lit "A01", VStr (lit "1"))]] = Ok (tt, h') /\
    h' !! 0%nat = Some d' /\
    (forall k', dict_get d' k' =
                  if decide (lit "B01" = k') then Some (VStr (lit "x"))
                  else dict_get [(lit "A01", VStr (lit "1"))] k') /\
    (forall l', l' <> 0%nat ->
       h' !! l' = ([[(lit "A01", VStr (lit "1"))]] : heap) !! l') /\
    length h' = length ([[(lit "A01", VStr (lit "1"))]] : heap).
Proof.
  split; [reflexivity|].
  apply (setitem_then_lookup 0 (lit "B01") (VStr (lit "x"))
           [[(lit "A01", VStr (lit "1"))]] [(lit "A01", VStr (lit "1"))]).
  reflexivity.
Defined.

(** X6: an assignment keeps the order of the keys: a key that is present
    stays where it is, a new key goes to the end; so keys that were
    pairwise distinct stay pairwise distinct. *)
Theorem dict_set_keys (d : dict) (k : pystr) (v : value) :
  dict_keys (dict_set d k v) =
    (if decide (k ∈ dict_keys d) then dict_keys d else dict_keys d ++ [k]) /\
  (NoDup (dict_keys d) -> NoDup (dict_keys (dict_set d k v))).
Proof.
  assert (Hkeys : dict_keys (dict_set d k v) =
    if decide (k ∈ dict_keys d) then dict_keys d else dict_keys d ++ [k]).
  { destruct (decide (k ∈ dict_keys d)) as [Hin|Hnin].
    - by apply dict_set_present.
    - rewrite dict_set_fresh by done. unfold dict_keys. by rewrite fmap_app. }
  split; [done|]. intros Hnd. rewrite Hkeys.
  destruct (decide (k ∈ dict_keys d)) as [Hin|Hnin]; [done|].
  apply NoDup_app. split_and!; [done| |apply NoDup_singleton].
  intros k' Hk' ->%list_elem_of_singleton. done.
Qed.

(** X7: one pass through the loop body, on a dictionary of the store and
    for a row within the limit of the conversion, succeeds for every column
    code from 1 to 0x10FFFF, and then assigns the cell's content under the
    cell's identifier.  For any other column code it raises: [ValueError]
    for a code that fits a C int (code 0 has no character before it, the
    others are no characters), [OverflowError] for one that does not. *)
Theorem cell_step_bounds (l : nat) (col_code row : Z) (h : heap) (d : dict) :
  h !! l = Some d -> convertible row ->
  run (cell_step (VRef l) col_code row) h =
    if bool_decide (1 <= col_code < 1114112) then
      Ok (tt, <[l := dict_set d (get_cell_id [col_code] row)
                       (VStr (cell_content col_code row))]> h)
    else if bool_decide (-2147483648 <= col_code <= 2147483647) then
      Raise ValueError
    else Raise OverflowError.
Proof.
  intros Hl _. case_bool_decide as Hc.
  - by apply cell_step_run.
  - unfold cell_step, chr. destruct (decide (col_code = 0)) as [->|Hne].
    + rewrite (bool_decide_true (0 <= 0 < 1114112)) by lia.
      erewrite run_bind by apply run_lift_ok.
      rewrite decide_False by done.
      rewrite (bool_decide_false (0 <= 0 - 1 < 1114112)) by lia.
      rewrite !bool_decide_true by lia. done.
    + rewrite (bool_decide_false (0 <= col_code < 1114112)) by lia.
      by destruct (bool_decide (-2147483648 <= col_code <= 2147483647)).
Qed.

Lemma cell_step_bounds_witness :
  ([[]] : heap) !! 0%nat = Some [] /\ convertible 7 /\
  run (cell_step (VRef 0) 0 7) [[]] =
    if bool_decide (1 <= 0 < 1114112) then
      Ok (tt, <[0%nat := dict_set [] (get_cell_id [0] 7)
                            (VStr (cell_content 0 7))]> [[]])
    else if bool_decide (-2147483648 <= 0 <= 2147483647) then
      Raise ValueError
    else Raise OverflowError.
Proof.
  split; [reflexivity|]. split; [by vm_compute|].
  apply (cell_step_bounds 0 0 7 [[]] []); [reflexivity | by vm_compute].
Defined.


(** * The order of the keys *)

Section order_facts.

Lemma lookup_bind_pair {A B} (xs : list A) (ys : list B) (i j : nat)
    (x : A) (y : B) :
  xs !! i = Some x -> ys !! j = Some y ->
  (x ← xs; pair x <$> ys) !! (i * length ys + j)%nat = Some (x, y).
Proof.
  intros Hx Hy. revert i Hx. induction xs as [|x0 xs IH]; intros i Hx; [done|].
  rewrite bind_cons. destruct i as [|i].
  - injection Hx as ->. change (0 * length ys + j)%nat with j.
    rewrite lookup_app_l.
    + by rewrite list_lookup_fmap, Hy.
    + rewrite length_fmap. apply lookup_lt_Some in Hy. lia.
  - rewrite lookup_app_r; rewrite length_fmap; [|lia].
    replace (S i * length ys + j - length ys)%nat
      with (i * length ys + j)%nat by lia.
    by apply IH.
Qed.

(** The place of a cell in the order of the loops. *)
Lemma grid_lookup (c r : Z) :
  65 <= c <= 90 -> 1 <= r <= 50 ->
  grid !! (Z.to_nat (c - 65) * 50 + Z.to_nat (r - 1))%nat = Some (c, r).
Proof.
  intros Hc Hr. unfold grid.
  change 50%nat with (length (range 1 51)).
  apply lookup_bind_pair; unfold range.
  - rewrite lookup_seqZ. lia.
  - rewrite lookup_seqZ. lia.
Qed.

Lemma dict_keys_table_lookup (c r : Z) :
  65 <= c <= 90 -> 1 <= r <= 50 ->
  dict_keys table !! (Z.to_nat (c - 65) * 50 + Z.to_nat (r - 1))%nat =
    Some (get_cell_id [c] r).
Proof.
  intros Hc Hr. by rewrite dict_keys_table, list_lookup_fmap, grid_lookup.
Qed.

End order_facts.

(** X9: the keys come in an order in which the table can be evaluated in
    one pass: the cell a formula refers to is always a key that was
    inserted before the formula's own key, exactly 50 places earlier. *)
Theorem keys_before_use (h : heap) :
  exists inputs : dict,
    fixture_inputs h = Some inputs /\
    forall (i : nat) k k',
      dict_keys inputs !! i = Some k -> refers inputs k k' ->
      (50 <= i)%nat /\ dict_keys inputs !! (i - 50)%nat = Some k'.
Proof.
  exists table. split; [apply fixture_inputs_eq|].
  intros i k k' Hi (c & r & Hc & Hr & -> & ->)%refers_table.
  assert (i = (Z.to_nat (c - 65) * 50 + Z.to_nat (r - 1))%nat) as ->.
  { eapply NoDup_lookup; [apply NoDup_dict_keys_table|done|].
    apply dict_keys_table_lookup; lia. }
  split; [lia|].
  replace (Z.to_nat (c - 65) * 50 + Z.to_nat (r - 1) - 50)%nat
    with (Z.to_nat (c - 1 - 65) * 50 + Z.to_nat (r - 1))%nat by lia.
  apply dict_keys_table_lookup; lia.
Qed.

(** * The text the script writes *)

Section json_facts.

(** Closes [Forall is_printable] over a list of given characters. *)
Ltac printable_chars :=
  unfold emit; cbn [fst];
  repeat match goal with
         | |- context [lit ?s] =>
             let t := eval vm_compute in (lit s) in change (lit s) with t
         end;
  repeat (apply Forall_cons; split; [unfold is_printable; lia|]);
  try apply Forall_nil_2.

Lemma json_escape_plain (c : Z) : is_plain_char c -> json_escape c = [c].
Proof.
  unfold is_plain_char, json_escape. intros Hc.
  rewrite !decide_False by lia. by rewrite bool_decide_true by lia.
Qed.

Lemma json_string_plain (s : pystr) :
  Forall is_plain_char s -> json_string s = 34 :: s ++ [34].
Proof.
  intros Hs. unfold json_string. do 2 f_equal.
  induction Hs as [|c s Hc _ IH]; [done|].
  by rewrite bind_cons, json_escape_plain, IH.
Qed.

Lemma hex_char_printable (d : Z) : 0 <= d < 16 -> is_printable (hex_char d).
Proof.
  unfold hex_char, is_printable. intros Hd. case_bool_decide; lia.
Qed.

Lemma hex4_printable (n : Z) : Forall is_printable (hex4 n).
Proof.
  unfold hex4. repeat constructor; apply hex_char_printable;
    apply Z.mod_pos_bound; lia.
Qed.

Lemma json_escape_printable (c : Z) : Forall is_printable (json_escape c).
Proof.
  assert (H92 : is_printable 92) by (unfold is_printable; lia).
  unfold json_escape.
  repeat (case_decide; [printable_chars; fail|]).
  case_bool_decide; [printable_chars|].
  case_bool_decide.
  - repeat (apply Forall_cons; split; [unfold is_printable; lia|]).
    apply hex4_printable.
  - cbv zeta. rewrite !Forall_app. split_and!;
      try apply hex4_printable; printable_chars.
Qed.

Lemma json_string_printable (s : pystr) : Forall is_printable (json_string s).
Proof.
  unfold json_string. apply Forall_cons. split; [unfold is_printable; lia|].
  apply Forall_app. split; [|printable_chars].
  apply Forall_bind. apply Forall_forall. intros c _.
  apply json_escape_printable.
Qed.

Lemma emit_then_emit (t : pystr) (e : pystr * outcome) :
  emit_then (emit t) e = (t ++ e.1, e.2).
Proof. done. Qed.

Lemma emit_then_printable (e1 e2 : pystr * outcome) :
  Forall is_printable e1.1 -> Forall is_printable e2.1 ->
  Forall is_printable (emit_then e1 e2).1.
Proof.
  unfold emit_then. intros H1 H2.
  destruct (e1.2); [|done|done]. by apply Forall_app.
Qed.

Lemma emit_lit_printable (t : pystr) :
  Forall is_printable t -> Forall is_printable (emit t).1.
Proof. done. Qed.

Lemma json_items_printable (enc : value -> pystr * outcome) (first : bool)
    (items : dict) :
  (forall v, Forall is_printable (enc v).1) ->
  Forall is_printable (json_items enc first items).1.
Proof.
  intros Henc. revert first. induction items as [|[k v] items IH]; intros first.
  - by constructor.
  - cbn [json_items]. repeat apply emit_then_printable; try done.
    + destruct first; printable_chars.
    + apply json_string_printable.
    + printable_chars.
Qed.

Lemma json_value_fuel_printable (fuel : nat) (h : heap) (markers : list nat)
    (v : value) :
  Forall is_printable (json_value_fuel fuel h markers v).1.
Proof.
  revert markers v. induction fuel as [|fuel IH]; intros markers v.
  - destruct v as [s|l]; cbn [json_value_fuel]; [apply json_string_printable|].
    destruct (h !! l) as [[|e d]|]; [| |by constructor].
    + printable_chars.
    + case_decide; by constructor.
  - destruct v as [s|l]; cbn [json_value_fuel]; [apply json_string_printable|].
    destruct (h !! l) as [[|e d]|]; [| |by constructor].
    + printable_chars.
    + case_decide; [by constructor|].
      repeat apply emit_then_printable.
      * printable_chars.
      * apply json_items_printable. intros v'. apply IH.
      * printable_chars.
Qed.

End json_facts.

(** X10: whatever the store holds, strings with quotes, control characters
    or characters beyond ASCII included, the text [json.dump] writes for a
    value consists of printable ASCII characters only. *)
Theorem json_dump_ascii (h : heap) (v : value) :
  Forall is_printable (json_dump h v).1.
Proof. apply json_value_fuel_printable. Qed.

(** * The file of the fixture *)

Section file_facts.

Lemma is_digit_char_plain (c : Z) : is_digit_char c -> is_plain_char c.
Proof. unfold is_digit_char, is_plain_char. lia. Qed.

Lemma get_cell_id_plain (c r : Z) :
  65 <= c <= 90 -> 0 <= r < 100 -> Forall is_plain_char (get_cell_id [c] r).
Proof.
  intros Hc Hr. rewrite get_cell_id_two_digits by lia.
  pose proof (Z.mod_pos_bound r 10).
  assert (0 <= r / 10 < 10)
    by (split; [apply Z.div_pos | apply Z.div_lt_upper_bound]; lia).
  repeat (apply Forall_cons; split;
          [unfold is_plain_char, digit_char; lia|]).
  constructor.
Qed.

Lemma cell_content_plain (c r : Z) :
  65 <= c <= 90 -> 1 <= r <= 50 -> Forall is_plain_char (cell_content c r).
Proof.
  intros Hc Hr. unfold cell_content. case_decide as Hcol.
  - rewrite str_nonneg by lia.
    eapply Forall_impl; [apply digits_all_digit_chars; lia|].
    apply is_digit_char_plain.
  - change (lit "= ") with [61; 32].
    change (lit " * 1.25") with [32; 42; 32; 49; 46; 50; 53].
    rewrite !Forall_app. split_and!.
    + repeat (apply Forall_cons; split; [unfold is_plain_char; lia|]).
      constructor.
    + apply get_cell_id_plain; lia.
    + repeat (apply Forall_cons; split; [unfold is_plain_char; lia|]).
      constructor.
Qed.

Lemma json_join_cons (m : pystr) (ms : list pystr) :
  json_join (m :: ms) = m ++ (ms ≫= fun x => lit ", " ++ x).
Proof.
  revert m. induction ms as [|m' ms IH]; intros m.
  - cbn. by rewrite app_nil_r.
  - change (json_join (m :: m' :: ms))
      with (m ++ lit ", " ++ json_join (m' :: ms)).
    by rewrite IH, bind_cons, <- app_assoc.
Qed.

Lemma json_member_plain (kv : pystr * pystr) :
  Forall is_plain_char kv.1 -> Forall is_plain_char kv.2 ->
  json_string kv.1 ++ lit ": " ++ json_string kv.2 = json_member kv.
Proof.
  intros Hk Hv. rewrite !json_string_plain by done. unfold json_member.
  change (jlit "': '") with ([34] ++ lit ": " ++ [34]).
  cbn [app]. by rewrite <- !app_assoc.
Qed.

(** The members of a dictionary of plain strings are written as they
    are, each but the first after a separator. *)
Lemma json_items_plain (enc : value -> pystr * outcome) (first : bool)
    (kvs : list (pystr * pystr)) :
  (forall s, enc (VStr s) = emit (json_string s)) ->
  Forall (fun kv => Forall is_plain_char kv.1 /\ Forall is_plain_char kv.2)
    kvs ->
  json_items enc first ((fun kv => (kv.1, VStr kv.2)) <$> kvs) =
    emit (match kvs with
          | [] => []
          | kv :: kvs' =>
              (if first then [] else lit ", ") ++ json_member kv ++
              (json_member <$> kvs') ≫= (fun x => lit ", " ++ x)
          end).
Proof.
  intros Henc Hplain. revert first.
  induction Hplain as [|kv kvs [Hk Hv] Hrest IH]; intros first; [done|].
  cbn [fmap list_fmap json_items fst snd]. rewrite Henc, (IH false).
  rewrite !emit_then_emit. cbn [fst snd]. unfold emit. f_equal. f_equal.
  rewrite <- (json_member_plain kv) by done. rewrite <- !app_assoc.
  do 3 f_equal. destruct kvs as [|kv' kvs']; [done|].
  by rewrite fmap_cons, bind_cons, <- app_assoc.
Qed.

Lemma json_value_fuel_str (fuel : nat) (h : heap) (markers : list nat)
    (s : pystr) :
  json_value_fuel fuel h markers (VStr s) = emit (json_string s).
Proof. by destruct fuel. Qed.

Lemma json_value_fuel_dict (fuel : nat) (h : heap) (markers : list nat)
    (l : nat) (e : pystr * value) (d : dict) :
  h !! l = Some (e :: d) -> l ∉ markers ->
  json_value_fuel (S fuel) h markers (VRef l) =
    emit_then (emit (lit "{"))
      (emit_then (json_items (json_value_fuel fuel h (l :: markers)) true
                    (e :: d))
         (emit (lit "}"))).
Proof.
  intros Hl Hm. cbn [json_value_fuel]. rewrite Hl. by rewrite decide_False.
Qed.

(** The table as pairs of strings. *)
Lemma table_strings :
  table = (fun kv => (kv.1, VStr kv.2)) <$>
            ((fun cell => (get_cell_id [cell.1] cell.2,
                           cell_content cell.1 cell.2)) <$> grid).
Proof. unfold table. by rewrite <- list_fmap_compose. Qed.

Lemma table_strings_plain :
  Forall (fun kv => Forall is_plain_char kv.1 /\ Forall is_plain_char kv.2)
    ((fun cell => (get_cell_id [cell.1] cell.2,
                   cell_content cell.1 cell.2)) <$> grid).
Proof.
  apply Forall_fmap, Forall_forall. intros [c r] Hin%elem_of_grid. cbn.
  split; [apply get_cell_id_plain | apply cell_content_plain]; lia.
Qed.

(** The dump of the document the generator leaves in the store. *)
Lemma json_dump_fixture (h : heap) :
  json_dump (h ++ [table; [(lit "inputs", VRef (length h))]])
            (VRef (S (length h))) = emit megatable_json.
Proof.
  unfold json_dump. rewrite length_app.
  replace (length h + length [table; [(lit "inputs", VRef (length h))]])%nat
    with (S (S (length h))) by (cbn; lia).
  set (h' := h ++ [table; [(lit "inputs", VRef (length h))]]).
  assert (Hdoc : h' !! S (length h) = Some [(lit "inputs", VRef (length h))]).
  { unfold h'. rewrite lookup_app_r by lia.
    by replace (S (length h) - length h)%nat with 1%nat by lia. }
  assert (Htab : h' !! length h = Some table).
  { unfold h'. by rewrite lookup_app_r, Nat.sub_diag by lia. }
  rewrite (json_value_fuel_dict _ _ _ _ _ _ Hdoc) by apply not_elem_of_nil.
  cbn [json_items].
  assert (Hinner :
    json_value_fuel (S (length h)) h' [S (length h)] (VRef (length h)) =
      emit (lit "{" ++
            json_join (json_member <$>
              ((fun cell => (get_cell_id [cell.1] cell.2,
                             cell_content cell.1 cell.2)) <$> grid)) ++
            lit "}")).
  { destruct table as [|e t] eqn:Et; [done|].
    rewrite (json_value_fuel_dict _ _ _ _ _ _ Htab)
      by (rewrite list_elem_of_singleton; lia).
    rewrite <- Et, table_strings.
    rewrite (json_items_plain _ true);
      [|intros s; apply json_value_fuel_str|apply table_strings_plain].
    destruct ((fun cell : Z * Z => _) <$> grid) as [|kv kvs] eqn:Ek.
    - rewrite table_strings, Ek in Et. done.
    - rewrite fmap_cons, json_join_cons. done. }
  rewrite Hinner, !emit_then_emit. cbn [fst snd emit].
  unfold emit, megatable_json. apply (f_equal (fun t => (t, Done))).
  rewrite <- list_fmap_compose.
  change (jlit "{'inputs': {")
    with (lit "{" ++ json_string (lit "inputs") ++ lit ": " ++ lit "{").
  change (lit "}}") with (lit "}" ++ lit "}").
  rewrite ?app_nil_r, <- ?app_assoc. done.
Qed.

End file_facts.

(** X12: what a run of the script leaves in [megatable.json], whatever
    the store and whatever the file held before.  When the file opens and
    takes all that is written, the run finishes and the file holds the text
    [{"inputs": {...}}] whose members are the 1300 cells in the order of the
    grid, each as ["id": "content"] with no escape sequence, separated by
    [", "].  When the disk fills up first, the run ends with [OSError] and
    the file holds the part of that text that went in.  When the file does
    not open, the run ends with [OSError] after the table is built and the
    file is as it was. *)
Theorem main_writes_fixture (fs : gmap (list Z) (list Z)) (h : heap) :
  ((main IoOk fs h).1 = Finished /\
   (main IoOk fs h).2 !! lit "megatable.json" = Some megatable_json) /\
  (forall room : nat,
     (main (DiskFull room) fs h).1 =
       (if decide (length megatable_json <= room)%nat then Finished
        else OSError) /\
     (main (DiskFull room) fs h).2 !! lit "megatable.json" =
       Some (take room megatable_json)) /\
  ((main OpenFails fs h).1 = OSError /\
   (main OpenFails fs h).2 !! lit "megatable.json" =
     fs !! lit "megatable.json").
Proof.
  unfold main. rewrite gen_megatable_run, json_dump_fixture.
  cbn [fst snd emit]. split_and!.
  - done.
  - apply lookup_insert_eq.
  - intros room. case_decide as Hroom; cbn [fst snd].
    + split; [done|]. rewrite lookup_insert_eq. by rewrite take_ge.
    + split; [done|]. apply lookup_insert_eq.
  - done.
  - done.
Qed.

(** X13: the text of the file: 29403 characters, all printable ASCII, no
    backslash among them; it opens with the column-A cells of rows 1 and 2
    and closes with the formula of cell Z50. *)
Theorem megatable_json_text (fs : gmap (list Z) (list Z)) (h : heap) :
  exists text : pystr,
    (main IoOk fs h).2 !! lit "megatable.json" = Some text /\
    Z.of_nat (length text) = 29403 /\
    Forall is_printable text /\
    (92 ∉ text) /\
    take 36 text = jlit "{'inputs': {'A01': '1', 'A02': '2', " /\
    drop (Z.to_nat 29380) text = jlit "'Z50': '= Y50 * 1.25'}}".
Proof.
  exists megatable_json. split_and!.
  - unfold main. rewrite gen_megatable_run, json_dump_fixture.
    cbn [snd fst emit].
    apply lookup_insert_eq.
  - by vm_compute.
  - change megatable_json with (emit megatable_json).1.
    rewrite <- (json_dump_fixture []). apply json_value_fuel_printable.
  - apply (bool_decide_unpack _). by vm_compute.
  - by vm_compute.
  - by vm_compute.
Qed.

(** X14: the results of two calls share nothing: each call builds its own
    table, so an assignment into the table of the first result leaves the
    second result the document it was. *)
Theorem results_do_not_alias (h : heap) (k : pystr) (v : value) :
  exists (doc1 doc2 inputs1 inputs2 : nat) (h' h'' : heap),
    run call_twice h = Ok ((VRef doc1, VRef doc2), h') /\
    h' !! doc1 = Some [(lit "inputs", VRef inputs1)] /\
    h' !! doc2 = Some [(lit "inputs", VRef inputs2)] /\
    inputs1 <> inputs2 /\
    run (setitem (VRef inputs1) k v) h' = Ok (tt, h'') /\
    (deref h'' (VRef inputs1) ≫= fun d => dict_get d k) = Some v /\
    snapshot h'' (VRef doc2) = fixture h.
Proof.
  set (d1 := [(lit "inputs", VRef (length h))]).
  set (d2 := [(lit "inputs", VRef (S (S (length h))))]).
  exists (S (length h)), (S (S (S (length h)))), (length h),
    (S (S (length h))), (h ++ [table; d1; table; d2]),
    (h ++ [dict_set table k v; d1; table; d2]).
  split_and!.
  - apply call_twice_run.
  - rewrite lookup_app_r by lia.
    by replace (S (length h) - length h)%nat with 1%nat by lia.
  - rewrite lookup_app_r by lia.
    by replace (S (S (S (length h))) - length h)%nat with 3%nat by lia.
  - lia.
  - erewrite run_setitem by (by rewrite lookup_app_r, Nat.sub_diag by lia).
    by rewrite insert_app_r_alt, Nat.sub_diag by lia.
  - cbn [deref]. rewrite lookup_app_r, Nat.sub_diag by lia.
    cbn [lookup list_lookup mbind option_bind].
    rewrite dict_get_set. by rewrite decide_True.
  - rewrite fixture_eq.
    pose proof (snapshot_doc (h ++ [dict_set table k v; d1]) [] table) as Hs.
    rewrite length_app, <- app_assoc in Hs. cbn [length app] in Hs.
    by replace (length h + 2)%nat with (S (S (length h))) in Hs by lia.
Qed.
